(** * The fault-game player of op-challenger

    A shallow embedding of [op-challenger/game/fault/player.go]: the
    constructor [NewGamePlayer], the accessor [Status], the polling step
    [ProgressGame] and its helper [logGameStatus].

    The Go code talks to collaborators that live outside the file (the game
    contract, the logger, the resource factory, the responder, the agent).
    Their behaviour is left open: they are the fields of the [World] class,
    each one a state transformer over an abstract environment [Env].  Every
    call the player makes to one of them is recorded, with its outcome, in
    the trace of the computation, so that statements such as "the factory
    is never called" or "the agent acts exactly once" are statements about
    that trace.

    Not modelled: cancellation through [context.Context] (a cancelled call
    is one more way for a collaborator to return an error), panics, and
    aliasing of the player by its own collaborators (neither the agent nor
    the loader holds a pointer to the [GamePlayer]). *)

From Stdlib Require Import ZArith List String Bool Lia.
Import ListNotations.
Local Open Scope string_scope.
Local Open Scope list_scope.

(** ** Values *)

(** Modelled from the spec: the declaration of [gameTypes.GameStatus] is in
    [op-challenger/game/types], outside the file; the data model gives the
    enumeration InProgress, DefenderWon, ChallengerWon.  The player only
    compares statuses for equality. *)
Inductive GameStatus : Type :=
| GameStatusInProgress
| GameStatusChallengerWon
| GameStatusDefenderWon.

Definition GameStatus_eqb (a b : GameStatus) : bool :=
  match a, b with
  | GameStatusInProgress, GameStatusInProgress => true
  | GameStatusChallengerWon, GameStatusChallengerWon => true
  | GameStatusDefenderWon, GameStatusDefenderWon => true
  | _, _ => false
  end.

(** Go [error] values.  [ErrWrap msg cause] is
    [fmt.Errorf(msg + ": %w", cause)]; [ErrExternal] stands for whatever a
    collaborator reports. *)
Inductive error : Type :=
| ErrExternal (msg : string)
| ErrWrap (msg : string) (cause : error).

(** A Go [(T, error)] return, read the way the callers read it: the value
    is only looked at when the error is nil. *)
Inductive result (A : Type) : Type :=
| Ok (a : A)
| Err (e : error).
Arguments Ok {A} a.
Arguments Err {A} e.

Definition result_err {A : Type} (r : result A) : option error :=
  match r with
  | Ok _ => None
  | Err e => Some e
  end.

(** [common.Address], 20 bytes, as the number they spell. *)
Definition Address : Type := N.

(** Conversion [int(x)] of a [uint64] on a 64-bit platform. *)
Definition int_of_uint64 (x : Z) : Z :=
  if (x <? 2 ^ 63)%Z then x else (x - 2 ^ 64)%Z.

(** [config.Config]; the player reads one field of it. *)
Record Config : Type := {
  AgreeWithProposedOutput : bool
}.

(** ** Log records and the trace of external calls *)

Inductive Level : Type := LvlTrace | LvlInfo | LvlWarn | LvlError.

(** The values the player hands to the logger as context. *)
Inductive LogVal : Type :=
| LAddr (a : Address)
| LStatus (s : GameStatus)
| LErr (e : error)
| LUint (n : Z).

(** One entry per call that leaves the file, with what came back. *)
Inductive Event : Type :=
| EvNewContract (addr : Address) (err : option error)
| EvGetStatus (r : result GameStatus)
| EvGetMaxGameDepth (r : result Z)
| EvGetClaimCount (r : result Z)
| EvCreator (addr : Address) (gameDepth : Z) (dir : string) (err : option error)
| EvValidatePrestate (err : option error)
| EvNewResponder (addr : Address) (err : option error)
| EvAct (err : option error)
| EvLog (lvl : Level) (msg : string) (ctx : list (string * LogVal)).

Definition is_act (ev : Event) : bool :=
  match ev with EvAct _ => true | _ => false end.

Definition is_get_status (ev : Event) : bool :=
  match ev with EvGetStatus _ => true | _ => false end.

(** Building the trace accessor and oracle updater, validating the
    prestate, creating the responder. *)
Definition is_resource_event (ev : Event) : bool :=
  match ev with
  | EvCreator _ _ _ _ | EvValidatePrestate _ | EvNewResponder _ _ => true
  | _ => false
  end.

Definition Level_eqb (a b : Level) : bool :=
  match a, b with
  | LvlTrace, LvlTrace | LvlInfo, LvlInfo
  | LvlWarn, LvlWarn | LvlError, LvlError => true
  | _, _ => false
  end.

Definition is_log_at (lvl : Level) (ev : Event) : bool :=
  match ev with
  | EvLog l _ _ => Level_eqb l lvl
  | _ => false
  end.

(** Whether the trace holds a log record of level [lvl] and message [msg]. *)
Definition logged (lvl : Level) (msg : string) (t : list Event) : bool :=
  existsb
    (fun ev =>
       match ev with
       | EvLog l m _ => Level_eqb l lvl && String.eqb m msg
       | _ => false
       end) t.

(** The error a construction step came back with, if it failed. *)
Definition step_error (ev : Event) : option error :=
  match ev with
  | EvNewContract _ err => err
  | EvGetStatus r => result_err r
  | EvGetMaxGameDepth r => result_err r
  | EvCreator _ _ _ err => err
  | EvValidatePrestate err => err
  | EvNewResponder _ err => err
  | EvGetClaimCount _ | EvAct _ | EvLog _ _ _ => None
  end.

(** The message [NewGamePlayer] wraps around the error of each step. *)
Definition failure_message (ev : Event) : string :=
  match ev with
  | EvNewContract _ _ => "failed to create fault dispute game contract wrapper"
  | EvGetStatus _ => "failed to fetch game status"
  | EvGetMaxGameDepth _ => "failed to fetch the game depth"
  | EvCreator _ _ _ _ => "failed to create trace provider"
  | EvValidatePrestate _ => "failed to validate absolute prestate"
  | EvNewResponder _ _ => "failed to create the responder"
  | EvGetClaimCount _ | EvAct _ | EvLog _ _ _ => ""
  end.

Definition count_events (p : Event -> bool) (t : list Event) : nat :=
  List.length (List.filter p t).

(** The pairings of stance and final status that count as a win: agreeing
    with the proposed output and the challenger winning, or disagreeing and
    the defender winning. *)
Definition stance_wins (agree : bool) (s : GameStatus) : Prop :=
  (agree = true /\ s = GameStatusChallengerWon) \/
  (agree = false /\ s = GameStatusDefenderWon).

Definition is_get_claim_count (ev : Event) : bool :=
  match ev with EvGetClaimCount _ => true | _ => false end.

Definition is_log (ev : Event) : bool :=
  match ev with EvLog _ _ _ => true | _ => false end.

(** The calls only [NewGamePlayer] makes: the contract wrapper, the depth
    read, the factory, the prestate validation, the responder. *)
Definition is_construction_call (ev : Event) : bool :=
  match ev with
  | EvNewContract _ _ | EvGetMaxGameDepth _ | EvCreator _ _ _ _
  | EvValidatePrestate _ | EvNewResponder _ _ => true
  | _ => false
  end.

(** What a computation leaves: its value, the environment after it, and
    the calls it made, oldest first. *)
Definition value {A E : Type} (r : A * E * list Event) : A := fst (fst r).
Definition final {A E : Type} (r : A * E * list Event) : E := snd (fst r).
Definition trace {A E : Type} (r : A * E * list Event) : list Event := snd r.

(** ** The collaborators *)

Class World : Type := {
  Env : Type;
  Logger : Type;
  Metricer : Type;
  TxManager : Type;
  EthClient : Type;
  RpcClient : Type;
  MultiCaller : Type;
  FaultDisputeGameContract : Type;
  TraceAccessor : Type;
  OracleUpdater : Type;
  FaultResponder : Type;
  Agent : Type;
  (* log.Logger *)
  logger_New : Logger -> list (string * LogVal) -> Logger;
  logger_write :
    Logger -> Level -> string -> list (string * LogVal) -> Env -> Env;
  (* ethclient, batching *)
  client_Client : EthClient -> RpcClient;
  DefaultBatchSize : Z;
  NewMultiCaller : RpcClient -> Z -> MultiCaller;
  (* contracts *)
  NewFaultDisputeGameContract :
    Address -> MultiCaller -> Env -> result FaultDisputeGameContract * Env;
  contract_GetStatus :
    FaultDisputeGameContract -> Env -> result GameStatus * Env;
  contract_GetClaimCount :
    FaultDisputeGameContract -> Env -> result Z * Env;
  contract_GetMaxGameDepth :
    FaultDisputeGameContract -> Env -> result Z * Env;
  (* responder *)
  NewFaultResponder :
    Logger -> TxManager -> Address -> Env -> result FaultResponder * Env;
  (* agent.go *)
  NewAgent :
    Metricer -> FaultDisputeGameContract -> Z -> TraceAccessor ->
    FaultResponder -> OracleUpdater -> bool -> Logger -> Agent;
  Agent_Act : Agent -> Env -> option error * Env
}.

Section Player.

Context {W : World}.

(** ** Computations: environment in, value, environment and trace out *)

Definition M (A : Type) : Type := Env -> A * Env * list Event.

Definition ret {A : Type} (a : A) : M A :=
  fun env => (a, env, []).

Definition bind {A B : Type} (m : M A) (k : A -> M B) : M B :=
  fun env =>
    let '(a, env1, t1) := m env in
    let '(b, env2, t2) := k a env1 in
    (b, env2, t1 ++ t2).

(** A call to a collaborator, recorded under [tag]. *)
Definition call {A : Type} (tag : A -> Event) (f : Env -> A * Env) : M A :=
  fun env => let '(a, env1) := f env in (a, env1, [tag a]).

Definition log (lg : Logger) (lvl : Level) (msg : string)
    (ctx : list (string * LogVal)) : M unit :=
  fun env => (tt, logger_write lg lvl msg ctx env, [EvLog lvl msg ctx]).

Notation "x <- m ;; k" := (bind m (fun x => k))
  (at level 61, m at next level, right associativity).
Notation "m ;;; k" := (bind m (fun _ => k))
  (at level 61, right associativity).

(** ** Types of the file *)

(** [type actor func(ctx context.Context) error] *)
Definition actor : Type := Env -> option error * Env.

(** [type GameInfo interface] *)
Record GameInfo : Type := {
  GetStatus : Env -> result GameStatus * Env;
  GetClaimCount : Env -> result Z * Env
}.

(** [type GamePlayer struct] *)
Record GamePlayer : Type := {
  act : actor;
  agreeWithProposedOutput : bool;
  loader : GameInfo;
  logger : Logger;
  status : GameStatus
}.

(** [type absolutePrestateValidator func(ctx, gameContract) error] *)
Definition absolutePrestateValidator : Type :=
  FaultDisputeGameContract -> Env -> option error * Env.

(** [type resourceCreator func(addr, gameDepth, dir) (..., error)] *)
Definition resourceCreator : Type :=
  Address -> Z -> string ->
  Env -> result (TraceAccessor * OracleUpdater * absolutePrestateValidator) * Env.

(** The contract wrapper seen through the [GameInfo] interface. *)
Definition asGameInfo (c : FaultDisputeGameContract) : GameInfo :=
  {| GetStatus := contract_GetStatus c;
     GetClaimCount := contract_GetClaimCount c |}.

(** The assignment [g.status = s]. *)
Definition set_status (g : GamePlayer) (s : GameStatus) : GamePlayer :=
  {| act := act g;
     agreeWithProposedOutput := agreeWithProposedOutput g;
     loader := loader g;
     logger := logger g;
     status := s |}.

(** The closure of the already-resolved branch: [return nil]. *)
Definition noopAct : actor := fun env => (None, env).

(** ** [NewGamePlayer] *)

Definition NewGamePlayer (logger0 : Logger) (m : Metricer) (cfg : Config)
    (dir : string) (addr : Address) (txMgr : TxManager) (client : EthClient)
    (creator : resourceCreator) : M (result GamePlayer) :=
  let logger := logger_New logger0 [("game", LAddr addr)] in
  r <- call (fun r => EvNewContract addr (result_err r))
         (NewFaultDisputeGameContract addr
            (NewMultiCaller (client_Client client) DefaultBatchSize)) ;;
  match r with
  | Err err =>
      ret (Err (ErrWrap "failed to create fault dispute game contract wrapper" err))
  | Ok loader =>
  r <- call EvGetStatus (contract_GetStatus loader) ;;
  match r with
  | Err err => ret (Err (ErrWrap "failed to fetch game status" err))
  | Ok status =>
  if negb (GameStatus_eqb status GameStatusInProgress) then
    log logger LvlInfo "Game already resolved" [("status", LStatus status)] ;;;
    ret (Ok {| logger := logger;
               loader := asGameInfo loader;
               agreeWithProposedOutput := AgreeWithProposedOutput cfg;
               status := status;
               act := noopAct |})
  else
  r <- call EvGetMaxGameDepth (contract_GetMaxGameDepth loader) ;;
  match r with
  | Err err => ret (Err (ErrWrap "failed to fetch the game depth" err))
  | Ok gameDepth =>
  r <- call (fun r => EvCreator addr gameDepth dir (result_err r))
         (creator addr gameDepth dir) ;;
  match r with
  | Err err => ret (Err (ErrWrap "failed to create trace provider" err))
  | Ok (provider, updater, prestateValidator) =>
  e <- call EvValidatePrestate (prestateValidator loader) ;;
  match e with
  | Some err => ret (Err (ErrWrap "failed to validate absolute prestate" err))
  | None =>
  r <- call (fun r => EvNewResponder addr (result_err r))
         (NewFaultResponder logger txMgr addr) ;;
  match r with
  | Err err => ret (Err (ErrWrap "failed to create the responder" err))
  | Ok responder =>
  ret (Ok {| act := Agent_Act
                      (NewAgent m loader (int_of_uint64 gameDepth) provider
                         responder updater (AgreeWithProposedOutput cfg) logger);
             agreeWithProposedOutput := AgreeWithProposedOutput cfg;
             loader := asGameInfo loader;
             logger := logger;
             status := status |})
  end end end end end end.

(** ** [Status] *)

Definition Status (g : GamePlayer) : GameStatus := status g.

(** ** [logGameStatus] *)

Definition logGameStatus (g : GamePlayer) (status : GameStatus) : M unit :=
  if GameStatus_eqb status GameStatusInProgress then
    r <- call EvGetClaimCount (GetClaimCount (loader g)) ;;
    match r with
    | Err err =>
        log (logger g) LvlError "Failed to get claim count for in progress game"
          [("err", LErr err)]
    | Ok claimCount =>
        log (logger g) LvlInfo "Game info"
          [("claims", LUint claimCount); ("status", LStatus status)]
    end
  else
    let expectedStatus :=
      if agreeWithProposedOutput g then GameStatusChallengerWon
      else GameStatusDefenderWon in
    if GameStatus_eqb expectedStatus status then
      log (logger g) LvlInfo "Game won" [("status", LStatus status)]
    else
      log (logger g) LvlError "Game lost" [("status", LStatus status)].

(** ** [ProgressGame]

    The method has a pointer receiver and assigns [g.status]; the model
    returns the status together with the player as the call leaves it. *)

Definition ProgressGame (g : GamePlayer) : M (GameStatus * GamePlayer) :=
  if negb (GameStatus_eqb (status g) GameStatusInProgress) then
    log (logger g) LvlTrace "Skipping completed game" [] ;;;
    ret (status g, g)
  else
    log (logger g) LvlTrace "Checking if actions are required" [] ;;;
    e <- call EvAct (act g) ;;
    match e with
    | Some err => log (logger g) LvlError "Error when acting on game" [("err", LErr err)]
    | None => ret tt
    end ;;;
    r <- call EvGetStatus (GetStatus (loader g)) ;;
    match r with
    | Err err =>
        log (logger g) LvlWarn "Unable to retrieve game status" [("err", LErr err)] ;;;
        ret (GameStatusInProgress, g)
    | Ok status =>
        logGameStatus g status ;;;
        ret (status, set_status g status)
    end.

(** The caller's polling loop: [n] calls in a row on the same player,
    with the statuses they returned, oldest first. *)
Fixpoint ProgressGameN (n : nat) (g : GamePlayer)
    : M (list GameStatus * GamePlayer) :=
  match n with
  | O => ret ([], g)
  | S n' =>
      r <- ProgressGame g ;;
      rest <- ProgressGameN n' (snd r) ;;
      ret (fst r :: fst rest, snd rest)
  end.

End Player.

(** ** A simulated world

    A small deterministic instance of [World], used to run the player on
    concrete inputs.  The environment is a clock that ticks at every read
    of the chain; the client carries the replies the chain will give: the
    status reply at tick [n] is the [n]-th entry of [chainStatus], a
    timeout once the list is exhausted. *)

Record Chain : Type := {
  chainStatus : list (result GameStatus);
  chainDepth : result Z;
  chainClaims : result Z
}.

Definition timeout : error := ErrExternal "context deadline exceeded".

Definition simWorld : World := {|
  Env := nat;
  Logger := list (string * LogVal);
  Metricer := unit;
  TxManager := unit;
  EthClient := Chain;
  RpcClient := Chain;
  MultiCaller := Chain;
  FaultDisputeGameContract := Chain;
  TraceAccessor := unit;
  OracleUpdater := unit;
  FaultResponder := unit;
  Agent := unit;
  logger_New := fun lg kv => lg ++ kv;
  logger_write := fun _ _ _ _ env => env;
  client_Client := fun c => c;
  DefaultBatchSize := 100%Z;
  NewMultiCaller := fun c _ => c;
  NewFaultDisputeGameContract := fun _ c env => (Ok c, env);
  contract_GetStatus :=
    fun c env => (nth env (chainStatus c) (Err timeout), S env);
  contract_GetClaimCount := fun c env => (chainClaims c, S env);
  contract_GetMaxGameDepth := fun c env => (chainDepth c, S env);
  NewFaultResponder := fun _ _ _ env => (Ok tt, env);
  NewAgent := fun _ _ _ _ _ _ _ _ => tt;
  Agent_Act := fun _ env => (None, env)
|}.

(** A factory that builds nothing and accepts every prestate. *)
Definition simCreator : @resourceCreator simWorld :=
  fun _ _ _ env => (Ok (tt, tt, fun _ env1 => (None, env1)), env).

(** An act step that fails without touching the chain. *)
Definition simFailingAct : @actor simWorld :=
  fun env => (Some (ErrExternal "move rejected"), env).

(** A player of [simWorld] reading the chain [c], built field by field. *)
Definition simPlayer (a : @actor simWorld) (agree : bool) (c : Chain)
    (s : GameStatus) : @GamePlayer simWorld :=
  {| act := a;
     agreeWithProposedOutput := agree;
     loader := @asGameInfo simWorld c;
     logger := [("game", LAddr 7%N)];
     status := s |}.

Definition chainOf (replies : list (result GameStatus)) (claims : result Z)
    : Chain :=
  {| chainStatus := replies; chainDepth := Ok 4%Z; chainClaims := claims |}.

Definition simConfig : Config := {| AgreeWithProposedOutput := true |}.

(** [NewGamePlayer] in [simWorld] on the chain [c], from tick 0. *)
Definition simNew (c : Chain)
    : result (@GamePlayer simWorld) * nat * list Event :=
  @NewGamePlayer simWorld [] tt simConfig "/tmp/game" 7%N tt c simCreator 0.

(** The scenario of the spec as it words it: when the status read of a
    [ProgressGame] call gives InProgress and the claim-count read fails,
    the call returns InProgress, the cached status is InProgress, and a
    warning is logged. *)
Definition claim_count_failure_warns {W : World}
    (g : GamePlayer) (env : Env) : Prop :=
  forall e : error,
    In (EvGetStatus (Ok GameStatusInProgress)) (trace (ProgressGame g env)) ->
    In (EvGetClaimCount (Err e)) (trace (ProgressGame g env)) ->
    fst (value (ProgressGame g env)) = GameStatusInProgress /\
    Status (snd (value (ProgressGame g env))) = GameStatusInProgress /\
    existsb (is_log_at LvlWarn) (trace (ProgressGame g env)) = true.

(** ** Facts *)

Section PlayerFacts.

Context {W : World}.

Lemma GameStatus_eqb_eq (a b : GameStatus) :
  GameStatus_eqb a b = true <-> a = b.
Proof. destruct a, b; simpl; split; congruence. Qed.

Lemma GameStatus_eqb_neq (a b : GameStatus) :
  GameStatus_eqb a b = false <-> a <> b.
Proof. destruct a, b; simpl; split; congruence. Qed.

Lemma not_in_progress_eqb (s : GameStatus) :
  s <> GameStatusInProgress ->
  negb (GameStatus_eqb s GameStatusInProgress) = true.
Proof. intros H. apply GameStatus_eqb_neq in H. rewrite H. reflexivity. Qed.

Lemma in_progress_eqb (s : GameStatus) :
  s = GameStatusInProgress ->
  negb (GameStatus_eqb s GameStatusInProgress) = false.
Proof. intros ->. reflexivity. Qed.

(** Case analysis on every collaborator reply a computation branches on. *)
Ltac reply :=
  match goal with
  | |- context [match ?x with _ => _ end] =>
      lazymatch x with
      | context [match _ with _ => _ end] => fail
      | _ => destruct x eqn:?
      end
  end.

Ltac replies := repeat (simpl; reply); simpl.

(** From [H : In ev t] on a trace written out, the entries [ev] can be. *)
Ltac pick_event H :=
  simpl in H;
  repeat match type of H with
         | _ \/ _ => destruct H as [H | H]; [try discriminate H |]
         end;
  try contradiction.

(** What one call does to a player whose game is over. *)
Lemma ProgressGame_skip (g : GamePlayer) (env : Env) :
  status g <> GameStatusInProgress ->
  ProgressGame g env =
    ((status g, g),
     logger_write (logger g) LvlTrace "Skipping completed game" [] env,
     [EvLog LvlTrace "Skipping completed game" []]).
Proof.
  intros H. unfold ProgressGame.
  rewrite (not_in_progress_eqb _ H). reflexivity.
Qed.

(** (C1) When the status read at construction is not InProgress,
    [NewGamePlayer] succeeds with a player holding that status whose [act]
    returns nil and leaves the environment alone; the construction calls
    neither the resource creator nor the prestate validator nor the
    responder constructor; and [ProgressGame] on that player returns the
    held status, leaves the player as it is, and does nothing but write
    one trace-level log record. *)
Theorem NewGamePlayer_resolved_is_noop
    (logger0 : Logger) (m : Metricer) (cfg : Config) (dir : string)
    (addr : Address) (txMgr : TxManager) (client : EthClient)
    (creator : resourceCreator) (env : Env) (s : GameStatus) :
  In (EvGetStatus (Ok s))
     (trace (NewGamePlayer logger0 m cfg dir addr txMgr client creator env)) ->
  s <> GameStatusInProgress ->
  exists g : GamePlayer,
    value (NewGamePlayer logger0 m cfg dir addr txMgr client creator env) = Ok g /\
    Status g = s /\
    (forall env1, act g env1 = (None, env1)) /\
    Forall (fun ev => is_resource_event ev = false)
      (trace (NewGamePlayer logger0 m cfg dir addr txMgr client creator env)) /\
    (forall env1,
        value (ProgressGame g env1) = (s, g) /\
        trace (ProgressGame g env1) = [EvLog LvlTrace "Skipping completed game" []]).
Proof.
  intros Hin Hs. revert Hin.
  unfold NewGamePlayer, bind, call, log, ret, trace, value.
  replies; intros Hin; pick_event Hin; injection Hin as ->;
    try (rewrite (not_in_progress_eqb _ Hs) in *; discriminate).
  eexists. split; [reflexivity |].
  split; [reflexivity |].
  split; [reflexivity |].
  split; [repeat constructor |].
  intros env1. rewrite ProgressGame_skip by exact Hs.
  split; reflexivity.
Qed.

(** One call leaves every field but [status] as it found it. *)
Lemma ProgressGame_only_sets_status (g : GamePlayer) (env : Env) :
  exists s : GameStatus, snd (value (ProgressGame g env)) = set_status g s.
Proof.
  unfold ProgressGame, logGameStatus, bind, call, log, ret, value.
  replies; eauto.
  all: exists (status g); destruct g; reflexivity.
Qed.

(** How the polling loop unfolds. *)
Lemma polling_loop_unfold (n : nat) (g : GamePlayer) (env : Env) :
  ProgressGameN (S n) g env =
    (let r := ProgressGame g env in
     let rest := ProgressGameN n (snd (value r)) (final r) in
     ((fst (value r) :: fst (value rest), snd (value rest)),
      final rest, trace r ++ trace rest)).
Proof.
  simpl. unfold bind, ret, value, final, trace.
  destruct (ProgressGame g env) as [[[s g1] env1] t1]. simpl.
  destruct (ProgressGameN n g1 env1) as [[[l g2] env2] t2]. simpl.
  rewrite app_nil_r. reflexivity.
Qed.

(** (C2) A player whose cached status is not InProgress stays as it is
    under any number of [ProgressGame] calls: every call returns the cached
    status, the player is unchanged, and the calls leave nothing in the
    trace but one "Skipping completed game" record each, so the act step is
    not invoked and the loader is not asked for the status. *)
Theorem ProgressGame_terminal_absorbing
    (g : GamePlayer) (n : nat) (env : Env) :
  Status g <> GameStatusInProgress ->
  value (ProgressGameN n g env) = (repeat (Status g) n, g) /\
  trace (ProgressGameN n g env) =
    repeat (EvLog LvlTrace "Skipping completed game" []) n /\
  count_events is_act (trace (ProgressGameN n g env)) = 0 /\
  count_events is_get_status (trace (ProgressGameN n g env)) = 0.
Proof.
  intros Hs. unfold Status in *.
  assert (Hrun : value (ProgressGameN n g env) = (repeat (status g) n, g) /\
                 trace (ProgressGameN n g env) =
                   repeat (EvLog LvlTrace "Skipping completed game" []) n).
  { revert env. induction n as [| n IH]; intros env.
    - split; reflexivity.
    - rewrite polling_loop_unfold, (ProgressGame_skip g env Hs).
      cbn [value final trace fst snd].
      destruct (IH (logger_write (logger g) LvlTrace
                      "Skipping completed game" [] env)) as [Hv Ht].
      rewrite Hv, Ht. split; reflexivity. }
  destruct Hrun as [Hv Ht]. rewrite Ht.
  repeat split; try assumption.
  - clear. unfold count_events. induction n; simpl; auto.
  - clear. unfold count_events. induction n; simpl; auto.
Qed.

(** (C3) When the cached status is InProgress and the status read of this
    call fails, [ProgressGame] returns InProgress and leaves the player,
    hence its cached status, as it was; the failure is logged as a
    warning. *)
Theorem ProgressGame_fetch_failure
    (g : GamePlayer) (env : Env) (e : error) :
  Status g = GameStatusInProgress ->
  In (EvGetStatus (Err e)) (trace (ProgressGame g env)) ->
  value (ProgressGame g env) = (GameStatusInProgress, g) /\
  Status (snd (value (ProgressGame g env))) = GameStatusInProgress /\
  logged LvlWarn "Unable to retrieve game status" (trace (ProgressGame g env))
    = true.
Proof.
  unfold Status. intros Hs.
  unfold ProgressGame, logGameStatus, bind, call, log, ret, trace, value.
  rewrite (in_progress_eqb _ Hs).
  replies; intros Hin; pick_event Hin; auto.
Qed.


Lemma stance_wins_dec (agree : bool) (s : GameStatus) :
  {stance_wins agree s} + {~ stance_wins agree s}.
Proof.
  unfold stance_wins.
  destruct agree, s; ((left; tauto) || (right; intuition discriminate)).
Qed.

(** (C5) When the cached status is InProgress and the status read of this
    call is a terminal one, the call logs "Game won" exactly when the
    stance and the status pair up as agree with ChallengerWon or disagree
    with DefenderWon, and logs "Game lost" (at error level) exactly in
    every other pairing. *)
Theorem ProgressGame_outcome_log
    (g : GamePlayer) (env : Env) (s : GameStatus) :
  Status g = GameStatusInProgress ->
  In (EvGetStatus (Ok s)) (trace (ProgressGame g env)) ->
  s <> GameStatusInProgress ->
  (logged LvlInfo "Game won" (trace (ProgressGame g env)) = true <->
   stance_wins (agreeWithProposedOutput g) s) /\
  (logged LvlError "Game lost" (trace (ProgressGame g env)) = true <->
   ~ stance_wins (agreeWithProposedOutput g) s).
Proof.
  unfold Status, stance_wins. intros Hs Hin Hterm. revert Hin.
  unfold ProgressGame, logGameStatus, bind, call, log, ret, trace, value.
  rewrite (in_progress_eqb _ Hs).
  replies; intros Hin; pick_event Hin; injection Hin as Hin; subst s.
  all: try congruence.
  all: try (exfalso; apply Hterm; apply GameStatus_eqb_eq; assumption).
  all: try match goal with
           | H : GameStatus_eqb _ ?a = _ |- _ => destruct a; try discriminate H
           end.
  all: try congruence.
  all: intuition congruence.
Qed.



(** (C8, amended) When the status read of this call gives InProgress and
    the claim-count read that follows fails, [ProgressGame] returns
    InProgress and leaves the cached status InProgress; the failure is
    logged at error level, not as a warning, and the caller gets a status
    and nothing else. *)
Theorem ProgressGame_claim_count_failure
    (g : GamePlayer) (env : Env) (e : error) :
  In (EvGetStatus (Ok GameStatusInProgress)) (trace (ProgressGame g env)) ->
  In (EvGetClaimCount (Err e)) (trace (ProgressGame g env)) ->
  fst (value (ProgressGame g env)) = GameStatusInProgress /\
  Status (snd (value (ProgressGame g env))) = GameStatusInProgress /\
  logged LvlError "Failed to get claim count for in progress game"
    (trace (ProgressGame g env)) = true /\
  existsb (is_log_at LvlWarn) (trace (ProgressGame g env)) = false.
Proof.
  unfold Status.
  unfold ProgressGame, logGameStatus, bind, call, log, ret, trace, value.
  replies; intros Hin Hcc; pick_event Hcc; pick_event Hin.
  all: injection Hin as Hin; auto.
Qed.

(** (C9) After any [ProgressGame] call, whichever path it took, the
    status it returned is the status [Status] reports on the player. *)
Theorem ProgressGame_returns_cached (g : GamePlayer) (env : Env) :
  fst (value (ProgressGame g env)) = Status (snd (value (ProgressGame g env))).
Proof.
  unfold Status, ProgressGame, logGameStatus, bind, call, log, ret, value.
  destruct (GameStatus_eqb (status g) GameStatusInProgress) eqn:Hs.
  - apply GameStatus_eqb_eq in Hs. replies; auto.
  - reflexivity.
Qed.

(** (C10) Across any number of [ProgressGame] calls the fields [act],
    [agreeWithProposedOutput], [loader] and [logger] of the player keep
    the values they had; [Status] only reads the player. *)
Theorem ProgressGame_frame_fields (n : nat) (g : GamePlayer) (env : Env) :
  act (snd (value (ProgressGameN n g env))) = act g /\
  agreeWithProposedOutput (snd (value (ProgressGameN n g env))) =
    agreeWithProposedOutput g /\
  loader (snd (value (ProgressGameN n g env))) = loader g /\
  logger (snd (value (ProgressGameN n g env))) = logger g.
Proof.
  revert g env. induction n as [| n IH]; intros g env.
  - repeat split; reflexivity.
  - rewrite polling_loop_unfold. cbn [value fst snd] in *.
    destruct (ProgressGame_only_sets_status g env) as [s Hg].
    destruct (IH (snd (value (ProgressGame g env))) (final (ProgressGame g env)))
      as (Ha & Hb & Hc & Hd).
    rewrite Ha, Hb, Hc, Hd, Hg. repeat split; reflexivity.
Qed.

(** ** Further facts on [NewGamePlayer] *)

(** Splits a trace written out into its last entry and what is before. *)
Ltac split_last :=
  match goal with
  | |- exists pre ev, ?t = pre ++ [ev] /\ _ =>
      exists (removelast t), (last t (EvAct None)); simpl
  end.

(** (X1) An error returned by [NewGamePlayer] always comes from the last
    call it made: that call failed, every call before it succeeded, and
    the error is the failure wrapped in the message of the step.  Nothing
    is called after the first failure. *)
Theorem NewGamePlayer_stops_at_first_failure
    (logger0 : Logger) (m : Metricer) (cfg : Config) (dir : string)
    (addr : Address) (txMgr : TxManager) (client : EthClient)
    (creator : resourceCreator) (env : Env) (err : error) :
  value (NewGamePlayer logger0 m cfg dir addr txMgr client creator env) =
    Err err ->
  exists (pre : list Event) (ev : Event),
    trace (NewGamePlayer logger0 m cfg dir addr txMgr client creator env) =
      pre ++ [ev] /\
    Forall (fun x => step_error x = None) pre /\
    exists e : error,
      step_error ev = Some e /\ err = ErrWrap (failure_message ev) e.
Proof.
  unfold NewGamePlayer, bind, call, log, ret, trace, value.
  replies; intros H; try discriminate H; injection H as <-.
  all: split_last.
  all: split; [reflexivity |].
  all: split; [repeat constructor |].
  all: eexists; split; reflexivity.
Qed.

(** (X2) [NewGamePlayer] returns a player exactly when none of the calls
    it made came back with an error. *)
Theorem NewGamePlayer_succeeds_iff_no_failure
    (logger0 : Logger) (m : Metricer) (cfg : Config) (dir : string)
    (addr : Address) (txMgr : TxManager) (client : EthClient)
    (creator : resourceCreator) (env : Env) :
  (exists g : GamePlayer,
      value (NewGamePlayer logger0 m cfg dir addr txMgr client creator env) =
        Ok g) <->
  Forall (fun ev => step_error ev = None)
    (trace (NewGamePlayer logger0 m cfg dir addr txMgr client creator env)).
Proof.
  unfold NewGamePlayer, bind, call, log, ret, trace, value.
  replies; split; intros H.
  all: try (repeat constructor; fail).
  all: try (eexists; reflexivity).
  all: try (destruct H as [g H]; discriminate H).
  all: repeat match goal with
              | H : Forall _ (_ :: _) |- _ =>
                  let Hh := fresh in
                  let Ht := fresh in
                  inversion H as [| ? ? Hh Ht]; subst; clear H;
                  simpl in Hh; try discriminate Hh
              end.
Qed.


(** (X4) The factory is called only for a game read as InProgress, and it
    is given the game address, the depth just read from the contract, and
    the working directory. *)
Theorem NewGamePlayer_creator_call
    (logger0 : Logger) (m : Metricer) (cfg : Config) (dir : string)
    (addr : Address) (txMgr : TxManager) (client : EthClient)
    (creator : resourceCreator) (env : Env)
    (a : Address) (d : Z) (p : string) (err : option error) :
  In (EvCreator a d p err)
     (trace (NewGamePlayer logger0 m cfg dir addr txMgr client creator env)) ->
  a = addr /\ p = dir /\
  In (EvGetMaxGameDepth (Ok d))
     (trace (NewGamePlayer logger0 m cfg dir addr txMgr client creator env)) /\
  In (EvGetStatus (Ok GameStatusInProgress))
     (trace (NewGamePlayer logger0 m cfg dir addr txMgr client creator env)).
Proof.
  unfold NewGamePlayer, bind, call, log, ret, trace, value.
  replies; intros H; pick_event H; injection H as <- <- <- <-.
  all: match goal with
       | Hb : negb (GameStatus_eqb ?s _) = false |- _ =>
           apply negb_false_iff, GameStatus_eqb_eq in Hb; subst s
       end.
  all: simpl; auto 10.
Qed.

(** (X5) The responder is created only after the factory succeeded and
    the prestate validation passed, and for the game address. *)
Theorem NewGamePlayer_responder_after_validation
    (logger0 : Logger) (m : Metricer) (cfg : Config) (dir : string)
    (addr : Address) (txMgr : TxManager) (client : EthClient)
    (creator : resourceCreator) (env : Env)
    (a : Address) (err : option error) :
  In (EvNewResponder a err)
     (trace (NewGamePlayer logger0 m cfg dir addr txMgr client creator env)) ->
  a = addr /\
  In (EvValidatePrestate None)
     (trace (NewGamePlayer logger0 m cfg dir addr txMgr client creator env)) /\
  exists d : Z,
    In (EvCreator addr d dir None)
       (trace (NewGamePlayer logger0 m cfg dir addr txMgr client creator env)).
Proof.
  unfold NewGamePlayer, bind, call, log, ret, trace, value.
  replies; intros H; pick_event H; injection H as <- <-.
  all: split; [reflexivity |]; split; [simpl; auto 10 |].
  all: eexists; simpl; auto 10.
Qed.


(** (X7) The construction never runs the act step and never reads the
    claim count: no move is made before the first [ProgressGame] call. *)
Theorem NewGamePlayer_makes_no_move
    (logger0 : Logger) (m : Metricer) (cfg : Config) (dir : string)
    (addr : Address) (txMgr : TxManager) (client : EthClient)
    (creator : resourceCreator) (env : Env) :
  Forall (fun ev => is_act ev = false /\ is_get_claim_count ev = false)
    (trace (NewGamePlayer logger0 m cfg dir addr txMgr client creator env)).
Proof.
  unfold NewGamePlayer, bind, call, log, ret, trace, value.
  replies; repeat constructor.
Qed.

(** ** Further facts on [ProgressGame] and [logGameStatus] *)

(** Turns the status tests met on the way into equations and drops the
    branches they rule out. *)
Ltac status_facts :=
  try match goal with
      | Hb : GameStatus_eqb _ _ = true |- _ =>
          apply GameStatus_eqb_eq in Hb; subst
      end;
  try (simpl in *; congruence).

(** (X8) [ProgressGame] logs "Error when acting on game" exactly when the
    act step of this call returned an error. *)
Theorem ProgressGame_act_error_logged (g : GamePlayer) (env : Env) :
  logged LvlError "Error when acting on game" (trace (ProgressGame g env)) =
    true <->
  exists e : error, In (EvAct (Some e)) (trace (ProgressGame g env)).
Proof.
  unfold ProgressGame, logGameStatus, bind, call, log, ret, trace, value.
  replies; split; intros H; try discriminate H; try reflexivity.
  all: try match goal with
           | H : exists _, _ |- _ => destruct H as [? H]; pick_event H; fail
           end.
  all: eexists; simpl; eauto.
Qed.



(** (X11) When the claim count is read and comes back as [n], the call
    logs "Game info" with that count at info level, returns InProgress and
    keeps the cached status InProgress. *)
Theorem ProgressGame_logs_claim_count
    (g : GamePlayer) (env : Env) (n : Z) :
  In (EvGetClaimCount (Ok n)) (trace (ProgressGame g env)) ->
  In (EvLog LvlInfo "Game info"
        [("claims", LUint n); ("status", LStatus GameStatusInProgress)])
     (trace (ProgressGame g env)) /\
  value (ProgressGame g env) =
    (GameStatusInProgress, set_status g GameStatusInProgress).
Proof.
  unfold ProgressGame, logGameStatus, bind, call, log, ret, trace, value.
  replies; status_facts; intros H; pick_event H; injection H as <-.
  all: split; [simpl; auto 10 | reflexivity].
Qed.


(** (X13) [ProgressGame] only runs the act step, reads the loader and
    writes log records: it never creates a contract wrapper, reads the
    game depth, calls the factory, validates the prestate or creates a
    responder. *)
Theorem ProgressGame_no_construction_call (g : GamePlayer) (env : Env) :
  Forall (fun ev => is_construction_call ev = false)
    (trace (ProgressGame g env)).
Proof.
  unfold ProgressGame, logGameStatus, bind, call, log, ret, trace, value.
  replies; repeat constructor.
Qed.

(** (X14) [logGameStatus] writes exactly one log record whatever status
    it is given, and reads the claim count at most once. *)
Theorem logGameStatus_one_record
    (g : GamePlayer) (s : GameStatus) (env : Env) :
  count_events is_log (trace (logGameStatus g s env)) = 1 /\
  count_events is_get_claim_count (trace (logGameStatus g s env)) <= 1 /\
  Forall (fun ev => is_log ev = true \/ is_get_claim_count ev = true)
    (trace (logGameStatus g s env)).
Proof.
  unfold logGameStatus, bind, call, log, ret, trace, value, count_events.
  replies; (split; [reflexivity |]); (split; [simpl; lia |]).
  all: repeat (apply Forall_cons; [simpl; auto |]); apply Forall_nil.
Qed.

(** ** The polling loop *)

Lemma count_events_app (p : Event -> bool) (t1 t2 : list Event) :
  count_events p (t1 ++ t2) = count_events p t1 + count_events p t2.
Proof.
  unfold count_events. rewrite filter_app, length_app. reflexivity.
Qed.

Lemma last_cons_default (A : Type) (l : list A) (a d : A) :
  last (a :: l) d = last l a.
Proof.
  revert a d. induction l as [| b l IH]; intros a d; [reflexivity |].
  change (last (a :: b :: l) d) with (last (b :: l) d).
  rewrite (IH b d), (IH b a). reflexivity.
Qed.

(** One call: the status returned is the status left in the player. *)
Lemma ProgressGame_status_sync (g : GamePlayer) (env : Env) :
  status (snd (value (ProgressGame g env))) = fst (value (ProgressGame g env)).
Proof.
  unfold ProgressGame, logGameStatus, bind, call, log, ret, value.
  destruct (GameStatus_eqb (status g) GameStatusInProgress) eqn:Hs.
  - apply GameStatus_eqb_eq in Hs. replies; auto.
  - reflexivity.
Qed.

(** One call: it acts and reads the status once each when the cached
    status is InProgress, and does neither otherwise. *)
Lemma ProgressGame_counts (g : GamePlayer) (env : Env) :
  count_events is_act (trace (ProgressGame g env)) =
    (if GameStatus_eqb (status g) GameStatusInProgress then 1 else 0) /\
  count_events is_get_status (trace (ProgressGame g env)) =
    (if GameStatus_eqb (status g) GameStatusInProgress then 1 else 0).
Proof.
  unfold ProgressGame, logGameStatus, bind, call, log, ret, trace, value,
    count_events.
  destruct (GameStatus_eqb (status g) GameStatusInProgress) eqn:Hs.
  - replies; split; reflexivity.
  - split; reflexivity.
Qed.

(** The loop on a player whose game is over. *)
Lemma polling_loop_skips (n : nat) (g : GamePlayer) (env : Env) :
  status g <> GameStatusInProgress ->
  value (ProgressGameN n g env) = (repeat (status g) n, g) /\
  count_events is_act (trace (ProgressGameN n g env)) = 0.
Proof.
  intros Hs. revert env. induction n as [| n IH]; intros env.
  - split; reflexivity.
  - rewrite polling_loop_unfold, (ProgressGame_skip g env Hs).
    cbn [value final trace fst snd].
    destruct (IH (logger_write (logger g) LvlTrace
                    "Skipping completed game" [] env)) as [Hv Hc].
    rewrite Hv, count_events_app, Hc. split; reflexivity.
Qed.

(** (X15) The statuses returned by any run of consecutive [ProgressGame]
    calls are InProgress for the first [k] calls and one and the same
    terminal status from then on; the act step runs on every call up to
    and including the first one that returns a terminal status, and never
    after (and not at all if the player started with a terminal status). *)
Theorem polling_loop_shape (n : nat) (g : GamePlayer) (env : Env) :
  exists (k : nat) (t : GameStatus),
    k <= n /\
    t <> GameStatusInProgress /\
    fst (value (ProgressGameN n g env)) =
      repeat GameStatusInProgress k ++ repeat t (n - k) /\
    count_events is_act (trace (ProgressGameN n g env)) =
      (if GameStatus_eqb (Status g) GameStatusInProgress
       then Nat.min n (S k) else 0).
Proof.
  unfold Status. revert g env. induction n as [| n IH]; intros g env.
  - exists 0, GameStatusChallengerWon. simpl.
    repeat split; try discriminate; auto.
    destruct (GameStatus_eqb (status g) GameStatusInProgress); reflexivity.
  - destruct (GameStatus_eqb (status g) GameStatusInProgress) eqn:Hg.
    + pose proof (ProgressGame_status_sync g env) as Hsync.
      destruct (ProgressGame_counts g env) as [Hact _].
      rewrite Hg in Hact.
      rewrite polling_loop_unfold.
      destruct (ProgressGame g env) as [[[s g1] env1] t1].
      cbn [value final trace fst snd] in *.
      rewrite count_events_app, Hact.
      destruct (GameStatus_eqb s GameStatusInProgress) eqn:Hs.
      * destruct (IH g1 env1) as (k & t & Hk & Ht & Hl & Hc).
        rewrite Hsync, Hs in Hc.
        apply GameStatus_eqb_eq in Hs.
        exists (S k), t. rewrite Hs, Hl, Hc.
        repeat split; try assumption; try lia.
      * apply GameStatus_eqb_neq in Hs.
        assert (Hg1 : status g1 <> GameStatusInProgress) by congruence.
        destruct (polling_loop_skips n g1 env1 Hg1) as [Hv Hc].
        rewrite Hv, Hc, Hsync. cbn [fst].
        exists 0, s.
        repeat split; try assumption; try lia.
    + apply GameStatus_eqb_neq in Hg.
      destruct (polling_loop_skips (S n) g env Hg) as [Hv Hc].
      rewrite Hv, Hc. cbn [fst].
      exists 0, (status g).
      repeat split; try assumption; try lia.
Qed.


(** (X17) After any run of consecutive [ProgressGame] calls, [Status]
    gives the status the last call returned (the status the player
    started with if no call was made). *)
Theorem polling_loop_status_is_last (n : nat) (g : GamePlayer) (env : Env) :
  Status (snd (value (ProgressGameN n g env))) =
    last (fst (value (ProgressGameN n g env))) (Status g).
Proof.
  unfold Status. revert g env. induction n as [| n IH]; intros g env.
  - reflexivity.
  - pose proof (ProgressGame_status_sync g env) as Hsync.
    rewrite polling_loop_unfold.
    destruct (ProgressGame g env) as [[[s g1] env1] t1].
    cbn [value final trace fst snd] in *.
    rewrite last_cons_default, (IH g1 env1), Hsync. reflexivity.
Qed.

End PlayerFacts.

(** ** Concrete runs in the simulated world *)

Example run_new_in_progress :
  trace (simNew (chainOf [Ok GameStatusInProgress] (Ok 3%Z))) =
    [EvNewContract 7%N None; EvGetStatus (Ok GameStatusInProgress);
     EvGetMaxGameDepth (Ok 4%Z); EvCreator 7%N 4%Z "/tmp/game" None;
     EvValidatePrestate None; EvNewResponder 7%N None].
Proof. reflexivity. Qed.

Example run_new_resolved :
  trace (simNew (chainOf [Ok GameStatusDefenderWon] (Ok 3%Z))) =
    [EvNewContract 7%N None; EvGetStatus (Ok GameStatusDefenderWon);
     EvLog LvlInfo "Game already resolved"
       [("status", LStatus GameStatusDefenderWon)]].
Proof. reflexivity. Qed.

Example run_progress_lost :
  trace (ProgressGame
           (simPlayer simFailingAct true
              (chainOf [Ok GameStatusDefenderWon] (Ok 3%Z))
              GameStatusInProgress) 0) =
    [EvLog LvlTrace "Checking if actions are required" [];
     EvAct (Some (ErrExternal "move rejected"));
     EvLog LvlError "Error when acting on game"
       [("err", LErr (ErrExternal "move rejected"))];
     EvGetStatus (Ok GameStatusDefenderWon);
     EvLog LvlError "Game lost" [("status", LStatus GameStatusDefenderWon)]].
Proof. reflexivity. Qed.

Example run_progress_claim_count_failure :
  trace (ProgressGame
           (simPlayer (@noopAct simWorld) true
              (chainOf [Ok GameStatusInProgress] (Err timeout))
              GameStatusInProgress) 0) =
    [EvLog LvlTrace "Checking if actions are required" [];
     EvAct None;
     EvGetStatus (Ok GameStatusInProgress);
     EvGetClaimCount (Err timeout);
     EvLog LvlError "Failed to get claim count for in progress game"
       [("err", LErr timeout)]].
Proof. reflexivity. Qed.

Example run_polling_loop :
  fst (value (ProgressGameN 4
                (simPlayer (@noopAct simWorld) false
                   (chainOf [Ok GameStatusInProgress; Ok GameStatusInProgress;
                             Err timeout; Ok GameStatusDefenderWon] (Ok 3%Z))
                   GameStatusInProgress) 0)) =
    [GameStatusInProgress; GameStatusInProgress;
     GameStatusDefenderWon; GameStatusDefenderWon].
Proof. reflexivity. Qed.

(** ** The theorems at work in the simulated world *)

Lemma NewGamePlayer_resolved_is_noop_witness :
  In (EvGetStatus (Ok GameStatusChallengerWon))
     (trace (simNew (chainOf [Ok GameStatusChallengerWon] (Ok 3%Z)))) /\
  GameStatusChallengerWon <> GameStatusInProgress /\
  exists g : @GamePlayer simWorld,
    value (simNew (chainOf [Ok GameStatusChallengerWon] (Ok 3%Z))) = Ok g /\
    Status g = GameStatusChallengerWon /\
    (forall env1, act g env1 = (None, env1)) /\
    Forall (fun ev => is_resource_event ev = false)
      (trace (simNew (chainOf [Ok GameStatusChallengerWon] (Ok 3%Z)))) /\
    (forall env1,
        value (ProgressGame g env1) = (GameStatusChallengerWon, g) /\
        trace (ProgressGame g env1) =
          [EvLog LvlTrace "Skipping completed game" []]).
Proof.
  split; [simpl; auto |].
  split; [discriminate |].
  apply (@NewGamePlayer_resolved_is_noop simWorld);
    [simpl; auto | discriminate].
Defined.

Lemma ProgressGame_terminal_absorbing_witness :
  Status (simPlayer simFailingAct false (chainOf [] (Ok 3%Z))
            GameStatusDefenderWon) <> GameStatusInProgress /\
  value (ProgressGameN 3
           (simPlayer simFailingAct false (chainOf [] (Ok 3%Z))
              GameStatusDefenderWon) 0) =
    ([GameStatusDefenderWon; GameStatusDefenderWon; GameStatusDefenderWon],
     simPlayer simFailingAct false (chainOf [] (Ok 3%Z)) GameStatusDefenderWon).
Proof.
  split; [discriminate |].
  apply (@ProgressGame_terminal_absorbing simWorld
           (simPlayer simFailingAct false (chainOf [] (Ok 3%Z))
              GameStatusDefenderWon) 3 0).
  discriminate.
Defined.

Lemma ProgressGame_fetch_failure_witness :
  Status (simPlayer (@noopAct simWorld) true (chainOf [] (Ok 3%Z))
            GameStatusInProgress) = GameStatusInProgress /\
  In (EvGetStatus (Err timeout))
     (trace (ProgressGame
               (simPlayer (@noopAct simWorld) true (chainOf [] (Ok 3%Z))
                  GameStatusInProgress) 0)) /\
  value (ProgressGame
           (simPlayer (@noopAct simWorld) true (chainOf [] (Ok 3%Z))
              GameStatusInProgress) 0) =
    (GameStatusInProgress,
     simPlayer (@noopAct simWorld) true (chainOf [] (Ok 3%Z))
       GameStatusInProgress).
Proof.
  split; [reflexivity |].
  split; [simpl; auto |].
  apply (@ProgressGame_fetch_failure simWorld _ 0 timeout);
    [reflexivity | simpl; auto].
Defined.


Lemma ProgressGame_outcome_log_witness :
  Status (simPlayer (@noopAct simWorld) true
            (chainOf [Ok GameStatusChallengerWon] (Ok 3%Z))
            GameStatusInProgress) = GameStatusInProgress /\
  In (EvGetStatus (Ok GameStatusChallengerWon))
     (trace (ProgressGame
               (simPlayer (@noopAct simWorld) true
                  (chainOf [Ok GameStatusChallengerWon] (Ok 3%Z))
                  GameStatusInProgress) 0)) /\
  GameStatusChallengerWon <> GameStatusInProgress /\
  (logged LvlInfo "Game won"
     (trace (ProgressGame
               (simPlayer (@noopAct simWorld) true
                  (chainOf [Ok GameStatusChallengerWon] (Ok 3%Z))
                  GameStatusInProgress) 0)) = true <->
   stance_wins true GameStatusChallengerWon).
Proof.
  split; [reflexivity |].
  split; [simpl; auto |].
  split; [discriminate |].
  apply (@ProgressGame_outcome_log simWorld
           (simPlayer (@noopAct simWorld) true
              (chainOf [Ok GameStatusChallengerWon] (Ok 3%Z))
              GameStatusInProgress) 0 GameStatusChallengerWon);
    [reflexivity | simpl; auto | discriminate].
Defined.



Lemma ProgressGame_claim_count_failure_witness :
  In (EvGetStatus (Ok GameStatusInProgress))
     (trace (ProgressGame
               (simPlayer (@noopAct simWorld) true
                  (chainOf [Ok GameStatusInProgress] (Err timeout))
                  GameStatusInProgress) 0)) /\
  In (EvGetClaimCount (Err timeout))
     (trace (ProgressGame
               (simPlayer (@noopAct simWorld) true
                  (chainOf [Ok GameStatusInProgress] (Err timeout))
                  GameStatusInProgress) 0)) /\
  logged LvlError "Failed to get claim count for in progress game"
    (trace (ProgressGame
              (simPlayer (@noopAct simWorld) true
                 (chainOf [Ok GameStatusInProgress] (Err timeout))
                 GameStatusInProgress) 0)) = true.
Proof.
  split; [simpl; auto |].
  split; [simpl; auto |].
  apply (@ProgressGame_claim_count_failure simWorld
           (simPlayer (@noopAct simWorld) true
              (chainOf [Ok GameStatusInProgress] (Err timeout))
              GameStatusInProgress) 0 timeout);
    simpl; auto.
Defined.

(** (C8, as worded) In the simulated world, with the status read giving
    InProgress and the claim-count read timing out, no warning is logged:
    the scenario as the spec words it fails there. *)
Lemma claim_count_failure_logs_no_warning :
  ~ @claim_count_failure_warns simWorld
      (simPlayer (@noopAct simWorld) true
         (chainOf [Ok GameStatusInProgress] (Err timeout))
         GameStatusInProgress) 0.
Proof.
  intros H.
  destruct (H timeout) as (_ & _ & Hwarn); [simpl; auto | simpl; auto |].
  discriminate Hwarn.
Qed.

Lemma NewGamePlayer_stops_at_first_failure_witness :
  value (simNew (chainOf [] (Ok 3%Z))) =
    Err (ErrWrap "failed to fetch game status" timeout) /\
  exists (pre : list Event) (ev : Event),
    trace (simNew (chainOf [] (Ok 3%Z))) = pre ++ [ev] /\
    Forall (fun x => step_error x = None) pre /\
    exists e : error,
      step_error ev = Some e /\
      ErrWrap "failed to fetch game status" timeout =
        ErrWrap (failure_message ev) e.
Proof.
  split; [reflexivity |].
  apply (@NewGamePlayer_stops_at_first_failure simWorld [] tt simConfig
           "/tmp/game" 7%N tt (chainOf [] (Ok 3%Z)) simCreator 0
           (ErrWrap "failed to fetch game status" timeout)).
  reflexivity.
Defined.


Lemma NewGamePlayer_creator_call_witness :
  In (EvCreator 7%N 4%Z "/tmp/game" None)
     (trace (simNew (chainOf [Ok GameStatusInProgress] (Ok 3%Z)))) /\
  In (EvGetMaxGameDepth (Ok 4%Z))
     (trace (simNew (chainOf [Ok GameStatusInProgress] (Ok 3%Z)))) /\
  In (EvGetStatus (Ok GameStatusInProgress))
     (trace (simNew (chainOf [Ok GameStatusInProgress] (Ok 3%Z)))).
Proof.
  split; [simpl; auto 10 |].
  apply (@NewGamePlayer_creator_call simWorld [] tt simConfig "/tmp/game"
           7%N tt (chainOf [Ok GameStatusInProgress] (Ok 3%Z)) simCreator 0
           7%N 4%Z "/tmp/game" None).
  simpl; auto 10.
Defined.

Lemma NewGamePlayer_responder_after_validation_witness :
  In (EvNewResponder 7%N None)
     (trace (simNew (chainOf [Ok GameStatusInProgress] (Ok 3%Z)))) /\
  In (EvValidatePrestate None)
     (trace (simNew (chainOf [Ok GameStatusInProgress] (Ok 3%Z)))).
Proof.
  split; [simpl; auto 10 |].
  apply (@NewGamePlayer_responder_after_validation simWorld [] tt simConfig
           "/tmp/game" 7%N tt (chainOf [Ok GameStatusInProgress] (Ok 3%Z))
           simCreator 0 7%N None).
  simpl; auto 10.
Defined.

Lemma ProgressGame_logs_claim_count_witness :
  In (EvGetClaimCount (Ok 3%Z))
     (trace (ProgressGame
               (simPlayer simFailingAct true
                  (chainOf [Ok GameStatusInProgress] (Ok 3%Z))
                  GameStatusInProgress) 0)) /\
  In (EvLog LvlInfo "Game info"
        [("claims", LUint 3%Z); ("status", LStatus GameStatusInProgress)])
     (trace (ProgressGame
               (simPlayer simFailingAct true
                  (chainOf [Ok GameStatusInProgress] (Ok 3%Z))
                  GameStatusInProgress) 0)).
Proof.
  split; [simpl; auto 10 |].
  apply (@ProgressGame_logs_claim_count simWorld
           (simPlayer simFailingAct true
              (chainOf [Ok GameStatusInProgress] (Ok 3%Z))
              GameStatusInProgress) 0 3%Z).
  simpl; auto 10.
Defined.
